(** * Product service of go-api-template: a shallow embedding

    The repository is one Go package, [api/v1/services/products.go]: five
    service functions (list, get, create, update, delete) over a storage
    executor.  This development embeds the five functions as state-passing
    Rocq functions over a [World] (the persisted table together with the
    environment the executor talks to) and proves the properties the
    specification states about them.

    Layout:
    - [Go]       : the few Go values the service handles (errors, results);
    - [Strconv]  : decimal printing and parsing of integers;
    - [Decimal]  : the two decimal types the price goes through;
    - [fiber], [T], [null] : status codes, service errors, nullable strings;
    - [M]        : the generated persistence layer, as a table of rows;
    - [Services] : the five functions of [products.go];
    - [Contract] : the five functions as one interface, and the vocabulary
                   of the properties;
    - [Samples]  : a few worlds and bodies to run the services on;
    - the properties. *)

From Stdlib Require Import ZArith String Ascii List Lia Bool.
From stdpp Require Import base option gmap.

Local Open Scope string_scope.
Local Open Scope list_scope.
Local Open Scope Z_scope.

(** ** Go values *)

Module Go.

(** A Go [error] value.  The service compares errors by identity with the
    sentinel [sql.ErrNoRows] and otherwise only carries them around, so an
    error is either that sentinel or some other error value with its text. *)
Inductive error : Type :=
| sql_ErrNoRows
| errors_New (text : string).

Definition is_ErrNoRows (e : error) : bool :=
  match e with
  | sql_ErrNoRows => true
  | errors_New _ => false
  end.

(** A Go pair [(value, err)] of which exactly one side is set. *)
Inductive result (E A : Type) : Type :=
| Ok (a : A)
| Err (e : E).

Arguments Ok {E A} a.
Arguments Err {E A} e.

End Go.
Export Go.

(** ** strconv

    [strconv] is a package of Go's standard library, which the repository
    imports and does not contain.  The service only prints the price with
    [strconv.Itoa]; the decimal library reads the digits back with
    [strconv.ParseInt]. *)

Module Strconv.

Definition digit_char (d : Z) : ascii := ascii_of_nat (48 + Z.to_nat d).

Definition digit_val (c : ascii) : option Z :=
  let n := Z.of_nat (nat_of_ascii c) in
  if (48 <=? n) && (n <=? 57) then Some (n - 48) else None.

(** The digit loop of [strconv.FormatInt] in base 10: digits are produced
    from the least significant one and pushed in front of [acc].  [fuel]
    bounds the number of digits. *)
Fixpoint formatBits (fuel : nat) (u : Z) (acc : string) : string :=
  match fuel with
  | O => acc
  | S fuel' =>
      let acc' := String (digit_char (u mod 10)) acc in
      if u / 10 =? 0 then acc' else formatBits fuel' (u / 10) acc'
  end.

(** One binary digit more than [u] has is enough fuel: every round divides
    by ten. *)
Definition digits_fuel (u : Z) : nat := S (Z.to_nat (Z.log2 u)).

Definition FormatUint (u : Z) : string := formatBits (digits_fuel u) u "".

(** Modelled from the spec: [strconv.Itoa] belongs to Go's standard library,
    which is not part of the repository; the spec calls its result the
    string form of the integer price.  It is the decimal numeral of [n],
    with a leading minus sign for a negative [n] and no leading zero. *)
Definition Itoa (n : Z) : string :=
  if n <? 0 then String "-" (FormatUint (- n)) else FormatUint n.

Inductive NumError : Type := ErrSyntax | ErrRange.

(** The loop of [strconv.ParseUint] in base 10 on [bitSize] bits: a
    character that is no digit is a syntax error, a value that leaves the
    [bitSize] bits is a range error. *)
Fixpoint ParseUint_loop (bitSize : Z) (s : string) (n : Z) : result NumError Z :=
  match s with
  | EmptyString => Ok n
  | String c s' =>
      match digit_val c with
      | None => Err ErrSyntax
      | Some d =>
          let n1 := n * 10 + d in
          if 2 ^ bitSize <=? n1 then Err ErrRange else ParseUint_loop bitSize s' n1
      end
  end.

Definition ParseUint (s : string) (bitSize : Z) : result NumError Z :=
  match s with
  | EmptyString => Err ErrSyntax
  | _ => ParseUint_loop bitSize s 0
  end.

(** Modelled from the spec: [strconv.ParseInt] in base 10 (Go's standard
    library, not part of the repository): an optional sign, then at least
    one digit, the value within [bitSize] signed bits. *)
Definition ParseInt (s : string) (bitSize : Z) : result NumError Z :=
  match s with
  | EmptyString => Err ErrSyntax
  | String c s' =>
      let '(neg, body) :=
        if Ascii.eqb c "+" then (false, s')
        else if Ascii.eqb c "-" then (true, s')
        else (false, s) in
      match ParseUint body bitSize with
      | Err e => Err e
      | Ok un =>
          let cutoff := 2 ^ (bitSize - 1) in
          if negb neg && (cutoff <=? un) then Err ErrRange
          else if neg && (cutoff <? un) then Err ErrRange
          else Ok (if neg then - un else un)
      end
  end.

(** The digits of an unbounded integer, as [big.Int.SetString] reads them. *)
Fixpoint parse_digits (s : string) (n : Z) : option Z :=
  match s with
  | EmptyString => Some n
  | String c s' =>
      match digit_val c with
      | None => None
      | Some d => parse_digits s' (n * 10 + d)
      end
  end.

End Strconv.

(** ** The decimal types of the price *)

Module Decimal.
Import Strconv.

(** Modelled from the spec: [decimal.Decimal] of shopspring/decimal (required
    by go.mod, not part of the repository), an arbitrary-precision decimal:
    the number [value * 10 ^ exp], with an unbounded integer [value]. *)
Record Decimal : Type := { value : Z; exp : Z }.

(** Modelled from the spec: [types.Decimal] of sqlboiler (required by
    go.mod, not part of the repository), the type of the [price] column: a
    decimal quantity of arbitrary precision, stored exactly; again a
    coefficient and a power of ten. *)
Record types_Decimal : Type := { coefficient : Z; exponent : Z }.

(** [cut_at p s] splits [s] at its first character that satisfies [p]: the
    text before it, and the text after it when there is such a character
    (the slices [value[:i]] and [value[i+1:]] of the Go code). *)
Fixpoint cut_at (p : ascii -> bool) (s : string) : string * option string :=
  match s with
  | EmptyString => (EmptyString, None)
  | String c s' =>
      if p c then (EmptyString, Some s')
      else let '(a, b) := cut_at p s' in (String c a, b)
  end.

Fixpoint contains (p : ascii -> bool) (s : string) : bool :=
  match s with
  | EmptyString => false
  | String c s' => p c || contains p s'
  end.

Definition is_exp_mark (c : ascii) : bool := Ascii.eqb c "e" || Ascii.eqb c "E".
Definition is_point (c : ascii) : bool := Ascii.eqb c ".".

(** [big.Int.SetString] in base 10: an optional sign and at least one digit. *)
Definition BigInt_SetString (s : string) : option Z :=
  match s with
  | EmptyString => None
  | String c s' =>
      let '(neg, body) :=
        if Ascii.eqb c "+" then (false, s')
        else if Ascii.eqb c "-" then (true, s')
        else (false, s) in
      match body with
      | EmptyString => None
      | _ => (fun un => if neg then - un else un) <$> parse_digits body 0
      end
  end.

Inductive LiteralError : Type :=
| ExponentNotNumeric
| ExponentTooLong
| TooManyPoints
| NotANumber.

(** The exponent part: the text after the first [e] or [E], a 32-bit
    integer; the exponent is 0 without such a part. *)
Definition scan_exponent (expPart : option string) : result LiteralError Z :=
  match expPart with
  | None => Ok 0
  | Some e =>
      match ParseInt e 32 with
      | Ok expInt => Ok expInt
      | Err ErrRange => Err ExponentTooLong
      | Err ErrSyntax => Err ExponentNotNumeric
      end
  end.

(** The digits around the decimal point: at most one point; the digits
    after it shift the exponent down. *)
Definition scan_point (mantissa : string) : result LiteralError (string * Z) :=
  match cut_at is_point mantissa with
  | (intString, None) => Ok (intString, 0)
  | (intPart, Some fraction) =>
      if contains is_point fraction then Err TooManyPoints
      else Ok (intPart ++ fraction, - Z.of_nat (String.length fraction))
  end%string.

(** The digits themselves: a machine integer when they are at most 18,
    an unbounded one otherwise. *)
Definition scan_digits (intString : string) : result LiteralError Z :=
  if (String.length intString <=? 18)%nat then
    match ParseInt intString 64 with
    | Ok parsed64 => Ok parsed64
    | Err _ => Err NotANumber
    end
  else
    match BigInt_SetString intString with
    | Some dValue => Ok dValue
    | None => Err NotANumber
    end.

(** A numeric literal, read exactly: coefficient and power of ten. *)
Definition scan_literal (s : string) : result LiteralError (Z * Z) :=
  let '(mantissa, expPart) := cut_at is_exp_mark s in
  match scan_exponent expPart with
  | Err e => Err e
  | Ok exp0 =>
      match scan_point mantissa with
      | Err e => Err e
      | Ok (intString, shift) =>
          match scan_digits intString with
          | Err e => Err e
          | Ok dValue =>
              let exp1 := exp0 + shift in
              if (exp1 <? - 2 ^ 31) || (2 ^ 31 - 1 <? exp1) then Err ExponentTooLong
              else Ok (dValue, exp1)
          end
      end
  end.

Definition literal_error_text (s : string) (e : LiteralError) : string :=
  ("can't convert " ++ s ++ " to decimal" ++
   match e with
   | ExponentNotNumeric => ": exponent is not numeric"
   | ExponentTooLong => ": fractional part too long"
   | TooManyPoints => ": too many .s"
   | NotANumber => ""
   end)%string.

(** Modelled from the spec: [decimal.NewFromString] belongs to the module
    github.com/shopspring/decimal, which go.mod requires and which is not
    part of the repository.  The spec: the price is converted to an exact
    decimal representation (no rounding, no floating-point intermediate),
    and the conversion fails on a malformed numeric literal. *)
Definition NewFromString (s : string) : result error Decimal :=
  match scan_literal s with
  | Ok (v, e) => Ok {| value := v; exp := e |}
  | Err le => Err (errors_New (literal_error_text s le))
  end.

Fixpoint zeros (n : nat) : string :=
  match n with
  | O => EmptyString
  | S n' => String "0" (zeros n')
  end.

(** [s] without the zeros at its end. *)
Fixpoint trim_trailing_zeros (s : string) : string :=
  match s with
  | EmptyString => EmptyString
  | String c s' =>
      match trim_trailing_zeros s' with
      | EmptyString => if Ascii.eqb c "0" then EmptyString else String c EmptyString
      | t => String c t
      end
  end.

(** Modelled from the spec: [Decimal.String] of shopspring/decimal (not part
    of the repository): the plain decimal numeral of the number, with no
    exponent and no zeros at the end of the fraction. *)
Definition Decimal_String (d : Decimal) : string :=
  if 0 <=? exp d then Itoa (value d * 10 ^ exp d)
  else
    let str := FormatUint (Z.abs (value d)) in
    let len := Z.of_nat (String.length str) in
    let k := - exp d in
    let '(intPart, fractionalPart) :=
      if k <? len
      then (substring 0 (Z.to_nat (len - k)) str,
            substring (Z.to_nat (len - k)) (Z.to_nat k) str)
      else ("0", zeros (Z.to_nat (k - len)) ++ str)%string in
    let fractionalPart := trim_trailing_zeros fractionalPart in
    let number :=
      match fractionalPart with
      | EmptyString => intPart
      | _ => (intPart ++ "." ++ fractionalPart)%string
      end in
    if value d <? 0 then String "-" number else number.

(** Modelled from the spec: [types.Decimal.Scan] belongs to sqlboiler's
    [types] package (not part of the repository).  The spec: the decimal
    type of the column is constructed from the numeral exactly, and a
    numeral it cannot read is a construction failure. *)
Definition Scan (s : string) : result error types_Decimal :=
  match scan_literal s with
  | Ok (c, e) => Ok {| coefficient := c; exponent := e |}
  | Err _ => Err (errors_New ("invalid decimal syntax: " ++ s)%string)
  end.

(** The integer a stored price stands for, when it is one. *)
Definition to_integer (d : types_Decimal) : option Z :=
  if 0 <=? exponent d then Some (coefficient d * 10 ^ exponent d)
  else if coefficient d mod 10 ^ (- exponent d) =? 0
       then Some (coefficient d / 10 ^ (- exponent d))
       else None.

End Decimal.

(** ** Status codes, service errors, entities *)

Module fiber.
(** Modelled from the spec: the status constants of gofiber/fiber (required
    by go.mod, not part of the repository): not-found is HTTP 404,
    bad-request HTTP 400, internal-error HTTP 500. *)
Definition StatusBadRequest : Z := 400.
Definition StatusNotFound : Z := 404.
Definition StatusInternalServerError : Z := 500.
End fiber.

Module T.
(** Modelled from the spec: the package [types] of the repository is not
    under src/.  A ServiceError has a user-facing message, the underlying
    cause, and a status code; the service fills the three fields by name. *)
Record ServiceError : Type :=
  { Message : string; Error : error; Code : Z }.

(** The three classifications of the spec. *)
Inductive Classification : Type := NotFound | BadRequest | InternalError.

Definition classify (code : Z) : option Classification :=
  if code =? fiber.StatusNotFound then Some NotFound
  else if code =? fiber.StatusBadRequest then Some BadRequest
  else if code =? fiber.StatusInternalServerError then Some InternalError
  else None.
End T.

Module null.
(** Modelled from the spec: [null.String] of aarondl/null (required by
    go.mod, not part of the repository), a nullable string: the text and
    whether a value is present.  The service fills both fields by name. *)
Record String : Type := { String_ : string; Valid : bool }.
End null.

(** ** The persistence layer *)

Module M.
Import Decimal.

(** Modelled from the spec: the package [models] of the repository
    (generated by sqlboiler) is not under src/.  A Product is a row of the
    table: id (primary key), name, description (nullable), price
    (decimal). *)
Record Product : Type :=
  { ID : Z; Name : string; Description : null.String; Price : types_Decimal }.

(** The columns of a row besides its primary key. *)
Record Columns : Type :=
  { name : string; description : null.String; price : types_Decimal }.

Definition columns (o : Product) : Columns :=
  {| name := Name o; description := Description o; price := Price o |}.

(** The entity read from the row with primary key [id]. *)
Definition entity (id : Z) (c : Columns) : Product :=
  {| ID := id; Name := name c; Description := description c; Price := price c |}.

(** A call the service makes on the executor. *)
Inductive Call : Type :=
| CallAll
| CallFind (id : Z)
| CallInsert (row : Product)
| CallUpdate (row : Product)
| CallDelete (row : Product).

(** What the executor [dbTrx] and the context [ctx] stand for: the persisted
    table, the sequence the identifiers come from, what the environment
    holds for the calls to come (for each one, whether it fails and with
    which driver error: a lost connection, a cancelled context, a violated
    constraint), and the calls made so far. *)
Record World : Type :=
  { table : gmap Z Columns;
    next_id : Z;
    faults : list (option string);
    calls : list Call }.

(** The persisted Products, in the order the storage gives them. *)
Definition rows (t : gmap Z Columns) : list Product :=
  (fun row => entity (fst row) (snd row)) <$> map_to_list t.

(** One round trip to the storage: the call is recorded and the
    environment's verdict for it is taken. *)
Definition round_trip (c : Call) (w : World) : option error * World :=
  let w' := {| table := table w; next_id := next_id w;
               faults := tail (faults w); calls := calls w ++ [c] |} in
  match faults w with
  | Some cause :: _ => (Some (errors_New cause), w')
  | _ => (None, w')
  end.

Definition set_table (t : gmap Z Columns) (w : World) : World :=
  {| table := t; next_id := next_id w; faults := faults w; calls := calls w |}.

Definition set_ID (id : Z) (p : Product) : Product :=
  {| ID := id; Name := Name p; Description := Description p; Price := Price p |}.

(** Modelled from the spec: [M.Products().All], the fetch of all rows; it
    fails when the storage does. *)
Definition Products_All (w : World) : result error (list Product) * World :=
  match round_trip CallAll w with
  | (Some err, w') => (Err err, w')
  | (None, w') => (Ok (rows (table w')), w')
  end.

(** Modelled from the spec: [M.FindProduct], the lookup by primary key; it
    reports [sql.ErrNoRows] when no row matches, and any other failure of
    the storage as it comes. *)
Definition FindProduct (w : World) (id : Z) : result error Product * World :=
  match round_trip (CallFind id) w with
  | (Some err, w') => (Err err, w')
  | (None, w') =>
      match table w' !! id with
      | Some c => (Ok (entity id c), w')
      | None => (Err sql_ErrNoRows, w')
      end
  end.

(** Modelled from the spec: [Product.Insert]; one new row, the storage
    assigns the identifier and the entity comes back fully populated.  A
    failed insert writes nothing. *)
Definition Insert (o : Product) (w : World) : result error Product * World :=
  match round_trip (CallInsert o) w with
  | (Some err, w') => (Err err, w')
  | (None, w') =>
      let id := next_id w' in
      let w'' := {| table := table w'; next_id := id + 1;
                    faults := faults w'; calls := calls w' |} in
      match table w' !! id with
      | Some _ => (Err (errors_New "duplicate key value violates unique constraint"), w'')
      | None => (Ok (set_ID id o), set_table (<[id := columns o]> (table w'')) w'')
      end
  end.

(** Modelled from the spec: [Product.Update]; the row with the entity's
    identifier is overwritten, and the number of rows changed is returned.
    A failed update writes nothing. *)
Definition Update (o : Product) (w : World) : result error Z * World :=
  match round_trip (CallUpdate o) w with
  | (Some err, w') => (Err err, w')
  | (None, w') =>
      match table w' !! ID o with
      | Some _ => (Ok 1, set_table (<[ID o := columns o]> (table w')) w')
      | None => (Ok 0, w')
      end
  end.

(** Modelled from the spec: [Product.Delete]; the row with the entity's
    identifier is removed for good, and the number of rows removed is
    returned.  A failed delete removes nothing. *)
Definition Delete (o : Product) (w : World) : result error Z * World :=
  match round_trip (CallDelete o) w with
  | (Some err, w') => (Err err, w')
  | (None, w') =>
      match table w' !! ID o with
      | Some _ => (Ok 1, set_table (delete (ID o) (table w')) w')
      | None => (Ok 0, w')
      end
  end.

End M.

(** ** The services of products.go *)

Module Services.
Import Strconv Decimal.

Record ProductBody : Type :=
  { Name : string; Description : string; Price : Z }.

Definition GetProducts (dbTrx : M.World)
  : result T.ServiceError (list M.Product) * M.World :=
  match M.Products_All dbTrx with
  | (Err err, w) =>
      (Err {| T.Message := "Unable to get products";
              T.Error := err;
              T.Code := fiber.StatusInternalServerError |}, w)
  | (Ok products, w) => (Ok products, w)
  end.

Definition GetProduct (dbTrx : M.World) (id : Z)
  : result T.ServiceError M.Product * M.World :=
  match M.FindProduct dbTrx id with
  | (Err err, w) =>
      if is_ErrNoRows err then
        (Err {| T.Message := "Product not found";
                T.Error := err;
                T.Code := fiber.StatusNotFound |}, w)
      else
        (Err {| T.Message := "Unable to get product";
                T.Error := err;
                T.Code := fiber.StatusInternalServerError |}, w)
  | (Ok product, w) => (Ok product, w)
  end.

(** [null.String{String: s, Valid: s != ""}] *)
Definition description_of (s : string) : null.String :=
  {| null.String_ := s; null.Valid := negb (String.eqb s "") |}.

Definition CreateProduct (dbTrx : M.World) (body : ProductBody)
  : result T.ServiceError M.Product * M.World :=
  if Price body <? 0 then
    (Err {| T.Message := "Price cannot be negative";
            T.Error := errors_New "invalid price";
            T.Code := fiber.StatusBadRequest |}, dbTrx)
  else
    match NewFromString (Itoa (Price body)) with
    | Err err =>
        (Err {| T.Message := "Invalid price format";
                T.Error := err;
                T.Code := fiber.StatusBadRequest |}, dbTrx)
    | Ok dec =>
        match Scan (Decimal_String dec) with
        | Err err =>
            (Err {| T.Message := "Failed to convert price to decimal";
                    T.Error := err;
                    T.Code := fiber.StatusInternalServerError |}, dbTrx)
        | Ok price =>
            let product :=
              {| M.ID := 0;
                 M.Name := Name body;
                 M.Description := description_of (Description body);
                 M.Price := price |} in
            match M.Insert product dbTrx with
            | (Err err, w) =>
                (Err {| T.Message := "Unable to create product";
                        T.Error := err;
                        T.Code := fiber.StatusInternalServerError |}, w)
            | (Ok product, w) => (Ok product, w)
            end
        end
    end.

Definition UpdateProduct (dbTrx : M.World) (id : Z) (body : ProductBody)
  : result T.ServiceError M.Product * M.World :=
  match M.FindProduct dbTrx id with
  | (Err err, w) =>
      if is_ErrNoRows err then
        (Err {| T.Message := "Product not found";
                T.Error := err;
                T.Code := fiber.StatusNotFound |}, w)
      else
        (Err {| T.Message := "Unable to get product";
                T.Error := err;
                T.Code := fiber.StatusInternalServerError |}, w)
  | (Ok product, w) =>
      if Price body <? 0 then
        (Err {| T.Message := "Price cannot be negative";
                T.Error := errors_New "invalid price";
                T.Code := fiber.StatusBadRequest |}, w)
      else
        match NewFromString (Itoa (Price body)) with
        | Err err =>
            (Err {| T.Message := "Invalid price format";
                    T.Error := err;
                    T.Code := fiber.StatusBadRequest |}, w)
        | Ok dec =>
            match Scan (Decimal_String dec) with
            | Err err =>
                (Err {| T.Message := "Failed to convert price to decimal";
                        T.Error := err;
                        T.Code := fiber.StatusInternalServerError |}, w)
            | Ok price =>
                let product :=
                  {| M.ID := M.ID product;
                     M.Name := Name body;
                     M.Description := description_of (Description body);
                     M.Price := price |} in
                match M.Update product w with
                | (Err err, w') =>
                    (Err {| T.Message := "Unable to update product";
                            T.Error := err;
                            T.Code := fiber.StatusInternalServerError |}, w')
                | (Ok _, w') => (Ok product, w')
                end
            end
        end
  end.

Definition DeleteProduct (dbTrx : M.World) (id : Z)
  : option T.ServiceError * M.World :=
  match M.FindProduct dbTrx id with
  | (Err err, w) =>
      if is_ErrNoRows err then
        (Some {| T.Message := "Product not found";
                 T.Error := err;
                 T.Code := fiber.StatusNotFound |}, w)
      else
        (Some {| T.Message := "Unable to get product";
                 T.Error := err;
                 T.Code := fiber.StatusInternalServerError |}, w)
  | (Ok product, w) =>
      match M.Delete product w with
      | (Err err, w') =>
          (Some {| T.Message := "Unable to delete product";
                   T.Error := err;
                   T.Code := fiber.StatusInternalServerError |}, w')
      | (Ok _, w') => (None, w')
      end
  end.

End Services.

(** ** The five operations as one interface *)

Module Contract.
Import Decimal Services.

(** A request of the routing layer, one constructor per service function. *)
Inductive Op : Type :=
| List
| Get (id : Z)
| Create (body : ProductBody)
| Update (id : Z) (body : ProductBody)
| Delete (id : Z).

(** What a successful operation hands back. *)
Inductive Reply : Type :=
| Products (products : list M.Product)
| Entity (product : M.Product)
| NoValue.

Definition run (op : Op) (w : M.World) : result T.ServiceError Reply * M.World :=
  match op with
  | List =>
      match GetProducts w with
      | (Ok ps, w') => (Ok (Products ps), w')
      | (Err e, w') => (Err e, w')
      end
  | Get id =>
      match GetProduct w id with
      | (Ok p, w') => (Ok (Entity p), w')
      | (Err e, w') => (Err e, w')
      end
  | Create body =>
      match CreateProduct w body with
      | (Ok p, w') => (Ok (Entity p), w')
      | (Err e, w') => (Err e, w')
      end
  | Update id body =>
      match UpdateProduct w id body with
      | (Ok p, w') => (Ok (Entity p), w')
      | (Err e, w') => (Err e, w')
      end
  | Delete id =>
      match DeleteProduct w id with
      | (None, w') => (Ok NoValue, w')
      | (Some e, w') => (Err e, w')
      end
  end.

(** The user-facing messages of products.go. *)
Definition messages : list string :=
  [ "Unable to get products"; "Product not found"; "Unable to get product";
    "Price cannot be negative"; "Invalid price format";
    "Failed to convert price to decimal"; "Unable to create product";
    "Unable to update product"; "Unable to delete product" ].

(** The calls made on the executor between two worlds. *)
Definition new_calls (w w' : M.World) : list M.Call :=
  drop (length (M.calls w)) (M.calls w').

(** The row a call writes, if it writes one. *)
Definition written (c : M.Call) : option M.Product :=
  match c with
  | M.CallInsert row | M.CallUpdate row => Some row
  | _ => None
  end.

(** The two states of a description: present with text, or absent. *)
Definition present_with_text (d : null.String) : Prop :=
  null.Valid d = true /\ null.String_ d <> "".

Definition absent (d : null.String) : Prop := null.Valid d = false.

Definition description_ok (d : null.String) : Prop :=
  present_with_text d \/ absent d.

Definition descriptions_ok (t : gmap Z M.Columns) : Prop :=
  forall id c, t !! id = Some c -> description_ok (M.description c).

(** What the environment held for the round trips made between two worlds,
    and the cause of the last of them, if it failed. *)
Definition consumed (w w' : M.World) : list (option string) :=
  take (length (M.faults w) - length (M.faults w')) (M.faults w).

Definition last_cause (w w' : M.World) : option string :=
  mjoin (last (consumed w w')).

(** Two worlds that differ at most in the causes of the failures to come:
    the same rows, the same sequence, failures at the same round trips. *)
Definition same_but_causes (w1 w2 : M.World) : Prop :=
  M.table w1 = M.table w2 /\ M.next_id w1 = M.next_id w2 /\
  Forall2 (fun f1 f2 => is_Some f1 <-> is_Some f2) (M.faults w1) (M.faults w2).

(** What the caller sees of a failure: message and status code. *)
Definition user_facing (r : result T.ServiceError Reply)
  : result (string * Z) Reply :=
  match r with
  | Ok v => Ok v
  | Err se => Err (T.Message se, T.Code se)
  end.

(** The entity [CreateProduct] hands to the storage for a body whose price
    converts to [price]. *)
Definition entity_of (id : Z) (body : ProductBody) (price : types_Decimal)
  : M.Product :=
  {| M.ID := id;
     M.Name := Name body;
     M.Description := description_of (Description body);
     M.Price := price |}.

Definition exact_price (n : Z) : types_Decimal :=
  {| coefficient := n; exponent := 0 |}.

(** The storage answers the next call: the environment holds no failure
    for it. *)
Definition answers (w : M.World) : bool :=
  match M.faults w with
  | Some _ :: _ => false
  | _ => true
  end.

(** The world after one round trip for the call [c]. *)
Definition after (c : M.Call) (w : M.World) : M.World := snd (M.round_trip c w).

(** The error of a lookup that found no row, as the services report it. *)
Definition product_not_found : T.ServiceError :=
  {| T.Message := "Product not found";
     T.Error := sql_ErrNoRows;
     T.Code := fiber.StatusNotFound |}.

(** No persisted price is below zero. *)
Definition prices_ok (t : gmap Z M.Columns) : Prop :=
  forall id c, t !! id = Some c -> 0 <= coefficient (M.price c).

(** The calls an operation may make on the storage: the reads make their
    one call; a writer makes its lookup, if it has one, and then at most one
    write, on the row of the id it was given. *)
Definition calls_allowed (op : Op) (cs : list M.Call) : Prop :=
  match op with
  | List => cs = [M.CallAll]
  | Get id => cs = [M.CallFind id]
  | Create body => cs = [] \/ exists o, cs = [M.CallInsert o]
  | Update id body =>
      cs = [M.CallFind id] \/
      exists o, cs = [M.CallFind id; M.CallUpdate o] /\ M.ID o = id
  | Delete id =>
      cs = [M.CallFind id] \/
      exists o, cs = [M.CallFind id; M.CallDelete o] /\ M.ID o = id
  end.

End Contract.

(** ** Sample worlds and bodies *)

Module Samples.
Import Decimal Services Contract.

Definition no_rows : M.World :=
  {| M.table := ∅; M.next_id := 1; M.faults := []; M.calls := [] |}.

Definition overdrawn : ProductBody :=
  {| Name := "Widget"; Description := "on loan"; Price := -5 |}.

Definition widget : ProductBody :=
  {| Name := "Widget"; Description := ""; Price := 10 |}.

(** The largest price a 64-bit [int] holds. *)
Definition priceless : ProductBody :=
  {| Name := "Gadget"; Description := "d"; Price := 9223372036854775807 |}.

Definition widget_row : M.Columns :=
  {| M.name := "Widget";
     M.description := description_of "";
     M.price := exact_price 10 |}.

(** One stored widget, and a storage that answers every call. *)
Definition one_widget : M.World :=
  {| M.table := {[ 1 := widget_row ]}; M.next_id := 2;
     M.faults := []; M.calls := [] |}.

(** The same world once the widget is deleted. *)
Definition widget_deleted : M.World :=
  {| M.table := delete 1 {[ 1 := widget_row ]}; M.next_id := 2;
     M.faults := [];
     M.calls := [M.CallFind 1; M.CallDelete (M.entity 1 widget_row)] |}.

(** One stored widget, and a storage that is lost after two calls. *)
Definition outage_after_two : M.World :=
  {| M.table := {[ 1 := widget_row ]}; M.next_id := 2;
     M.faults := [None; None; Some "connection refused"]; M.calls := [] |}.


(** A second body, to overwrite the widget with. *)
Definition gizmo : ProductBody :=
  {| Name := "Gizmo"; Description := "spare"; Price := 25 |}.

(** One stored widget, and a storage that fails the second call. *)
Definition second_call_fails (cause : string) : M.World :=
  {| M.table := {[ 1 := widget_row ]}; M.next_id := 2;
     M.faults := [None; Some cause]; M.calls := [] |}.

End Samples.

(** * Properties *)

(** ** Integers and their decimal numerals *)

Section Numerals.
Import Strconv Decimal.

Lemma digit_val_digit_char d :
  0 <= d < 10 -> digit_val (digit_char d) = Some d.
Proof.
  intros Hd.
  assert (d = 0 \/ d = 1 \/ d = 2 \/ d = 3 \/ d = 4 \/
          d = 5 \/ d = 6 \/ d = 7 \/ d = 8 \/ d = 9) as Hcases by lia.
  repeat (destruct Hcases as [-> | Hcases]; [reflexivity |]).
  subst d. reflexivity.
Qed.

(** A digit is neither a sign, nor a decimal point, nor an exponent mark. *)
Lemma digit_val_plain c d :
  digit_val c = Some d ->
  is_exp_mark c = false /\ is_point c = false /\
  Ascii.eqb c "+" = false /\ Ascii.eqb c "-" = false.
Proof.
  destruct c as [[] [] [] [] [] [] [] []]; vm_compute; intros H;
    first [ discriminate H | repeat split ].
Qed.

Lemma digit_val_range c d : digit_val c = Some d -> 0 <= d < 10.
Proof.
  unfold digit_val.
  destruct (_ && _) eqn:Hb; [| discriminate].
  intros [= <-]. apply andb_true_iff in Hb. lia.
Qed.

(** Printing then reading: the digits [formatBits] pushes in front of
    [acc] read back as [u], whatever was read before. *)
Lemma parse_formatBits fuel : forall u acc,
  0 <= u < 2 ^ Z.of_nat fuel ->
  parse_digits (formatBits fuel u acc) 0 = parse_digits acc u.
Proof.
  induction fuel as [| fuel IH]; intros u acc Hu.
  - simpl in *. assert (u = 0) as -> by lia. reflexivity.
  - cbn [formatBits].
    assert (0 <= u mod 10 < 10) as Hm by (apply Z.mod_pos_bound; lia).
    assert (u = u / 10 * 10 + u mod 10) as Hdiv
      by (rewrite (Z.mul_comm (u / 10)); apply Z.div_mod; lia).
    destruct (u / 10 =? 0) eqn:Hq.
    + apply Z.eqb_eq in Hq. cbn [parse_digits].
      rewrite (digit_val_digit_char _ Hm). f_equal. lia.
    + apply Z.eqb_neq in Hq.
      assert (0 < u / 10) by (pose proof (Z.div_pos u 10); lia).
      rewrite IH.
      * cbn [parse_digits]. rewrite (digit_val_digit_char _ Hm).
        f_equal. lia.
      * rewrite Nat2Z.inj_succ, Z.pow_succ_r in Hu by lia.
        split; [lia |].
        apply Z.div_lt_upper_bound; lia.
Qed.

Lemma digits_fuel_enough u : 0 <= u -> 0 <= u < 2 ^ Z.of_nat (digits_fuel u).
Proof.
  intros Hu. split; [assumption |].
  unfold digits_fuel.
  rewrite Nat2Z.inj_succ, Z2Nat.id by apply Z.log2_nonneg.
  destruct (Z.eq_dec u 0) as [-> | Hne]; [reflexivity |].
  apply Z.log2_spec. lia.
Qed.

Lemma parse_FormatUint u : 0 <= u -> parse_digits (FormatUint u) 0 = Some u.
Proof.
  intros Hu. unfold FormatUint.
  rewrite parse_formatBits by (apply digits_fuel_enough; assumption).
  reflexivity.
Qed.

Lemma formatBits_length fuel : forall u acc,
  (String.length acc <= String.length (formatBits fuel u acc))%nat.
Proof.
  induction fuel as [| fuel IH]; intros u acc; cbn [formatBits].
  - lia.
  - destruct (u / 10 =? 0).
    + cbn [String.length]. lia.
    + etransitivity; [| apply IH]. cbn [String.length]. lia.
Qed.

Lemma FormatUint_not_empty u : FormatUint u <> EmptyString.
Proof.
  unfold FormatUint, digits_fuel. cbn [formatBits]. intros Heq.
  destruct (u / 10 =? 0); [discriminate |].
  pose proof (formatBits_length (Z.to_nat (Z.log2 u)) (u / 10)
                (String (digit_char (u mod 10)) "")) as Hlen.
  rewrite Heq in Hlen. cbn [String.length] in Hlen. lia.
Qed.

(** What reading digits tells about the text read. *)
Lemma parse_digits_plain s : forall n m,
  parse_digits s n = Some m ->
  cut_at is_exp_mark s = (s, None) /\ cut_at is_point s = (s, None).
Proof.
  induction s as [| c s IH]; intros n m H; cbn in *.
  - split; reflexivity.
  - destruct (digit_val c) as [d |] eqn:Hc; [| discriminate].
    destruct (digit_val_plain _ _ Hc) as (-> & -> & _ & _).
    destruct (IH _ _ H) as [-> ->]. split; reflexivity.
Qed.

Lemma parse_digits_bounds s : forall n m,
  0 <= n -> parse_digits s n = Some m ->
  n <= m < (n + 1) * 10 ^ Z.of_nat (String.length s).
Proof.
  induction s as [| c s IH]; intros n m Hn H; cbn [parse_digits] in H.
  - injection H as <-. cbn. lia.
  - destruct (digit_val c) as [d |] eqn:Hc; [| discriminate].
    apply digit_val_range in Hc.
    apply IH in H; [| lia].
    cbn [String.length]. rewrite Nat2Z.inj_succ, Z.pow_succ_r by lia.
    assert (0 < 10 ^ Z.of_nat (String.length s)) by (apply Z.pow_pos_nonneg; lia).
    nia.
Qed.

(** Within the bits the bounded loop agrees with the unbounded one. *)
Lemma ParseUint_loop_parse_digits bitSize s : forall n m,
  0 <= n -> parse_digits s n = Some m -> m < 2 ^ bitSize ->
  ParseUint_loop bitSize s n = Ok m.
Proof.
  induction s as [| c s IH]; intros n m Hn H Hm; cbn in *.
  - congruence.
  - destruct (digit_val c) as [d |] eqn:Hc; [| discriminate].
    pose proof (digit_val_range _ _ Hc) as Hd.
    assert (0 <= n * 10 + d) as Hn1 by lia.
    pose proof (parse_digits_bounds _ _ _ Hn1 H) as Hb.
    destruct (2 ^ bitSize <=? n * 10 + d) eqn:Hle.
    + apply Z.leb_le in Hle. lia.
    + apply IH; [lia | assumption | assumption].
Qed.

(** A numeral without sign, of a value within 63 bits, is read by
    [ParseInt]. *)
Lemma ParseInt_digits s m :
  s <> EmptyString -> parse_digits s 0 = Some m -> m < 2 ^ 63 ->
  ParseInt s 64 = Ok m.
Proof.
  intros Hs H Hm. destruct s as [| c s]; [congruence |].
  unfold ParseInt.
  assert (Ascii.eqb c "+" = false /\ Ascii.eqb c "-" = false) as [-> ->].
  { cbn in H. destruct (digit_val c) eqn:Hc; [| discriminate].
    apply digit_val_plain in Hc. tauto. }
  unfold ParseUint.
  rewrite (ParseUint_loop_parse_digits 64 _ 0 m) by (assumption || lia).
  change (64 - 1) with 63.
  cbn [negb andb].
  destruct (2 ^ 63 <=? m) eqn:Hle; [apply Z.leb_le in Hle; lia |].
  reflexivity.
Qed.

Lemma BigInt_SetString_digits s m :
  s <> EmptyString -> parse_digits s 0 = Some m ->
  BigInt_SetString s = Some m.
Proof.
  intros Hs H. destruct s as [| c s]; [congruence |].
  unfold BigInt_SetString.
  assert (Ascii.eqb c "+" = false /\ Ascii.eqb c "-" = false) as [-> ->].
  { cbn in H. destruct (digit_val c) eqn:Hc; [| discriminate].
    apply digit_val_plain in Hc. tauto. }
  rewrite H. reflexivity.
Qed.

Lemma scan_digits_digits s m :
  s <> EmptyString -> parse_digits s 0 = Some m -> scan_digits s = Ok m.
Proof.
  intros Hs H. unfold scan_digits.
  destruct (String.length s <=? 18)%nat eqn:Hlen.
  - apply Nat.leb_le in Hlen.
    rewrite (ParseInt_digits s m); [reflexivity | assumption | assumption |].
    pose proof (parse_digits_bounds _ _ _ (Z.le_refl 0) H) as [_ Hb].
    assert (10 ^ Z.of_nat (String.length s) <= 10 ^ 18)
      by (apply Z.pow_le_mono_r; lia).
    lia.
  - rewrite (BigInt_SetString_digits s m); [reflexivity | assumption | assumption].
Qed.

(** The numeral of a non-negative integer is a literal that reads back as
    that integer, with exponent 0. *)
Lemma scan_literal_Itoa n : 0 <= n -> scan_literal (Itoa n) = Ok (n, 0).
Proof.
  intros Hn. unfold Itoa.
  destruct (n <? 0) eqn:Hneg; [apply Z.ltb_lt in Hneg; lia |].
  pose proof (parse_FormatUint n Hn) as Hparse.
  destruct (parse_digits_plain _ _ _ Hparse) as [Hexp Hpoint].
  unfold scan_literal. rewrite Hexp. cbn [scan_exponent].
  unfold scan_point. rewrite Hpoint.
  rewrite (scan_digits_digits _ n (FormatUint_not_empty n) Hparse).
  reflexivity.
Qed.

Lemma Decimal_String_integer n :
  Decimal_String {| value := n; exp := 0 |} = Itoa n.
Proof.
  unfold Decimal_String. cbn [exp value].
  change (0 <=? 0) with true. cbn iota.
  rewrite Z.pow_0_r, Z.mul_1_r. reflexivity.
Qed.

Lemma NewFromString_Itoa n :
  0 <= n -> NewFromString (Itoa n) = Ok {| value := n; exp := 0 |}.
Proof.
  intros Hn. unfold NewFromString. rewrite scan_literal_Itoa by assumption.
  reflexivity.
Qed.

Lemma Scan_Itoa n :
  0 <= n -> Scan (Itoa n) = Ok {| coefficient := n; exponent := 0 |}.
Proof.
  intros Hn. unfold Scan. rewrite scan_literal_Itoa by assumption.
  reflexivity.
Qed.

End Numerals.

(** ** The services, step by step *)

Section ServiceSteps.
Import Strconv Decimal Services Contract.

(** With the conversions settled, [CreateProduct] is the price check
    followed by one insert. *)
Lemma CreateProduct_steps w body :
  CreateProduct w body =
  if Price body <? 0 then
    (Err {| T.Message := "Price cannot be negative";
            T.Error := errors_New "invalid price";
            T.Code := fiber.StatusBadRequest |}, w)
  else
    match M.Insert (entity_of 0 body (exact_price (Price body))) w with
    | (Err err, w') =>
        (Err {| T.Message := "Unable to create product";
                T.Error := err;
                T.Code := fiber.StatusInternalServerError |}, w')
    | (Ok product, w') => (Ok product, w')
    end.
Proof.
  unfold CreateProduct.
  destruct (Price body <? 0) eqn:Hneg; [reflexivity |].
  apply Z.ltb_ge in Hneg.
  rewrite NewFromString_Itoa, Decimal_String_integer, Scan_Itoa by assumption.
  reflexivity.
Qed.

(** [UpdateProduct] is the lookup, the price check and one update. *)
Lemma UpdateProduct_steps w id body :
  UpdateProduct w id body =
  match M.FindProduct w id with
  | (Err err, w1) =>
      if is_ErrNoRows err then
        (Err {| T.Message := "Product not found";
                T.Error := err;
                T.Code := fiber.StatusNotFound |}, w1)
      else
        (Err {| T.Message := "Unable to get product";
                T.Error := err;
                T.Code := fiber.StatusInternalServerError |}, w1)
  | (Ok found, w1) =>
      if Price body <? 0 then
        (Err {| T.Message := "Price cannot be negative";
                T.Error := errors_New "invalid price";
                T.Code := fiber.StatusBadRequest |}, w1)
      else
        let product := entity_of (M.ID found) body (exact_price (Price body)) in
        match M.Update product w1 with
        | (Err err, w') =>
            (Err {| T.Message := "Unable to update product";
                    T.Error := err;
                    T.Code := fiber.StatusInternalServerError |}, w')
        | (Ok _, w') => (Ok product, w')
        end
  end.
Proof.
  unfold UpdateProduct.
  destruct (M.FindProduct w id) as [[found | err] w1]; [| reflexivity].
  destruct (Price body <? 0) eqn:Hneg; [reflexivity |].
  apply Z.ltb_ge in Hneg.
  rewrite NewFromString_Itoa, Decimal_String_integer, Scan_Itoa by assumption.
  reflexivity.
Qed.

(** A round trip leaves the rows and the sequence alone, records the call
    and takes one verdict from the environment. *)
Lemma round_trip_world c w :
  let w' := snd (M.round_trip c w) in
  M.table w' = M.table w /\ M.next_id w' = M.next_id w /\
  M.calls w' = M.calls w ++ [c] /\ M.faults w' = tail (M.faults w).
Proof.
  unfold M.round_trip. destruct (M.faults w) as [| [cause |] fs]; cbn; auto.
Qed.

Lemma round_trip_verdict c w :
  fst (M.round_trip c w) =
  match M.faults w with
  | Some cause :: _ => Some (errors_New cause)
  | _ => None
  end.
Proof.
  unfold M.round_trip. destruct (M.faults w) as [| [cause |] fs]; reflexivity.
Qed.

(** The lookup, in terms of the world it starts from. *)
Lemma FindProduct_cases w id :
  exists w1,
    M.table w1 = M.table w /\ M.next_id w1 = M.next_id w /\
    M.calls w1 = M.calls w ++ [M.CallFind id] /\
    M.faults w1 = tail (M.faults w) /\
    M.FindProduct w id =
    match M.faults w with
    | Some cause :: _ => (Err (errors_New cause), w1)
    | _ => match M.table w !! id with
           | Some c => (Ok (M.entity id c), w1)
           | None => (Err sql_ErrNoRows, w1)
           end
    end.
Proof.
  exists (snd (M.round_trip (M.CallFind id) w)).
  destruct (round_trip_world (M.CallFind id) w) as (Ht & Hn & Hc & Hf).
  repeat (split; [assumption |]).
  unfold M.FindProduct.
  pose proof (round_trip_verdict (M.CallFind id) w) as Hv.
  destruct (M.round_trip (M.CallFind id) w) as [verdict w1].
  cbn [fst snd] in *. subst verdict. rewrite Ht.
  destruct (M.faults w) as [| [cause |] fs]; reflexivity.
Qed.

End ServiceSteps.

(** ** Reading: list and get *)

(** Every world is one of three: the next round trip fails with some cause,
    or it goes through (nothing pending, or a pending success). *)
Ltac next_verdict w :=
  let t := fresh "t" in
  let n := fresh "n" in
  let fs := fresh "fs" in
  let cs := fresh "cs" in
  let cause := fresh "cause" in
  destruct w as [t n fs cs]; destruct fs as [| [cause |] fs].

(** Unfold the storage calls on a world whose next verdict is known and
    split on the table lookups and on the price check. *)
Ltac storage_steps :=
  unfold M.FindProduct, M.Insert, M.Update, M.Delete, M.Products_All,
    M.round_trip, M.set_table;
  repeat (cbn in *;
          match goal with
          | |- context [match ?t !! ?k with _ => _ end] =>
              destruct (t !! k) eqn:?
          | |- context [if ?n <? 0 then _ else _] => destruct (n <? 0) eqn:?
          end);
  cbn in *.

Section Reading.
Import Services Contract.

(** The fetched list holds exactly the persisted rows. *)
Lemma rows_all (t : gmap Z M.Columns) (product : M.Product) :
  product ∈ M.rows t <-> t !! M.ID product = Some (M.columns product).
Proof.
  unfold M.rows. rewrite list_elem_of_fmap. split.
  - intros ([id c] & -> & Hin). apply elem_of_map_to_list in Hin.
    destruct c. exact Hin.
  - intros Hrow. exists (M.ID product, M.columns product). split.
    + destruct product. reflexivity.
    + apply elem_of_map_to_list. exact Hrow.
Qed.

(** C8: GetProducts returns all persisted Products (each row of the table,
    and nothing else) when the underlying fetch succeeds; whenever the fetch
    fails, whatever the cause, it fails with the internal-error
    classification and carries the cause along, so no other classification
    is possible. *)
Theorem GetProducts_fetch (w : M.World) :
  match M.Products_All w with
  | (Ok products, w') =>
      GetProducts w = (Ok products, w') /\
      forall product,
        product ∈ products <->
        M.table w !! M.ID product = Some (M.columns product)
  | (Err err, w') =>
      exists se,
        GetProducts w = (Err se, w') /\ T.Error se = err /\
        T.classify (T.Code se) = Some T.InternalError
  end.
Proof.
  unfold GetProducts.
  next_verdict w; cbn; eauto using rows_all.
Qed.

(** C5: GetProduct returns the matching Product when the lookup succeeds;
    when the lookup fails it fails too, with not-found exactly when the
    lookup reported that no row matches, and with internal-error for every
    other failure of the storage. *)
Theorem GetProduct_lookup (w : M.World) (id : Z) :
  match M.FindProduct w id with
  | (Ok product, w') =>
      GetProduct w id = (Ok product, w') /\
      M.ID product = id /\ M.table w !! id = Some (M.columns product)
  | (Err err, w') =>
      exists se,
        GetProduct w id = (Err se, w') /\ T.Error se = err /\
        (T.classify (T.Code se) = Some T.NotFound <-> err = sql_ErrNoRows) /\
        (err <> sql_ErrNoRows -> T.classify (T.Code se) = Some T.InternalError)
  end.
Proof.
  unfold GetProduct.
  destruct (M.FindProduct w id) as [[product | err] w'] eqn:Hfind.
  - split; [reflexivity |].
    destruct (FindProduct_cases w id) as (w1 & _ & _ & _ & _ & Hcases).
    rewrite Hfind in Hcases.
    destruct (M.faults w) as [| [cause |] fs];
      try discriminate; destruct (M.table w !! id) as [[] |];
      try discriminate; injection Hcases as -> _; split; reflexivity.
  - destruct err as [| text]; cbn [is_ErrNoRows]; eexists;
      (split; [reflexivity |]); cbn; repeat split; congruence.
Qed.

End Reading.

(** ** Validation of the price *)

Section Validation.
Import Services Contract Samples.

(** C2: UpdateProduct looks the product up before it looks at the body:
    whenever GetProduct fails on an id, UpdateProduct fails on it with the
    very same service error and in the same world, whatever the body holds
    (a negative price included): not-found when the lookup reported no row,
    internal-error on any other failure of the lookup. *)
Theorem UpdateProduct_lookup_first (w : M.World) (id : Z) (body : ProductBody)
    (se : T.ServiceError) (w' : M.World) :
  GetProduct w id = (Err se, w') ->
  UpdateProduct w id body = (Err se, w') /\
  (T.Error se = sql_ErrNoRows -> T.classify (T.Code se) = Some T.NotFound) /\
  (T.Error se <> sql_ErrNoRows -> T.classify (T.Code se) = Some T.InternalError).
Proof.
  unfold GetProduct, UpdateProduct.
  destruct (M.FindProduct w id) as [[product | err] w1]; [discriminate |].
  destruct err as [| text]; cbn [is_ErrNoRows]; intros [= <- <-];
    (split; [reflexivity |]); cbn; split; congruence.
Qed.

Lemma UpdateProduct_lookup_first_witness :
  GetProduct no_rows 7 =
    (Err {| T.Message := "Product not found"; T.Error := sql_ErrNoRows;
            T.Code := 404 |},
     {| M.table := ∅; M.next_id := 1; M.faults := [];
        M.calls := [M.CallFind 7] |}) /\
  UpdateProduct no_rows 7 overdrawn =
    (Err {| T.Message := "Product not found"; T.Error := sql_ErrNoRows;
            T.Code := 404 |},
     {| M.table := ∅; M.next_id := 1; M.faults := [];
        M.calls := [M.CallFind 7] |}).
Proof.
  split; [reflexivity |].
  apply (UpdateProduct_lookup_first no_rows 7 overdrawn). reflexivity.
Defined.

(** C1, as the spec states it, fails on an id that is not stored: the
    lookup comes first, and UpdateProduct with a negative price answers
    not-found there, not bad-request. *)
Lemma negative_price_update_not_found :
  Price overdrawn < 0 /\
  exists se w',
    UpdateProduct no_rows 7 overdrawn = (Err se, w') /\
    T.classify (T.Code se) = Some T.NotFound /\
    T.classify (T.Code se) <> Some T.BadRequest.
Proof.
  split; [reflexivity |].
  do 2 eexists. split; [reflexivity |]. split; [reflexivity | discriminate].
Qed.

(** C1, amended: for every ProductBody with price < 0, CreateProduct fails
    with bad-request without a single call on the storage (the world is
    returned as it was); UpdateProduct fails for every id, its only call on
    the storage is the lookup and the rows are left as they were; it fails
    with bad-request when the lookup finds the product, and as GetProduct
    does when the lookup fails. *)
Theorem negative_price_rejected (body : ProductBody) :
  Price body < 0 ->
  (forall w, exists se,
      CreateProduct w body = (Err se, w) /\
      T.classify (T.Code se) = Some T.BadRequest) /\
  (forall w id, exists se w',
      UpdateProduct w id body = (Err se, w') /\
      M.table w' = M.table w /\
      M.calls w' = M.calls w ++ [M.CallFind id] /\
      match fst (M.FindProduct w id) with
      | Ok _ => T.classify (T.Code se) = Some T.BadRequest
      | Err _ => GetProduct w id = (Err se, w')
      end).
Proof.
  intros Hneg. apply Z.ltb_lt in Hneg. split.
  - intros w. unfold CreateProduct. rewrite Hneg. eauto.
  - intros w id. unfold UpdateProduct, GetProduct.
    destruct (FindProduct_cases w id) as (w1 & Ht & _ & Hc & _ & Hfind).
    destruct (M.FindProduct w id) as [[found | err] w0];
      assert (w0 = w1) as ->
        by (destruct (M.faults w) as [| [cause |] fs];
            try destruct (M.table w !! id); congruence).
    + rewrite Hneg. do 2 eexists. repeat split; eauto.
    + destruct err; cbn [is_ErrNoRows]; do 2 eexists; repeat split; eauto.
Qed.

Lemma negative_price_rejected_witness :
  Price overdrawn < 0 /\
  (exists se,
      CreateProduct no_rows overdrawn = (Err se, no_rows) /\
      T.classify (T.Code se) = Some T.BadRequest) /\
  (exists se w',
      UpdateProduct one_widget 1 overdrawn = (Err se, w') /\
      M.table w' = M.table one_widget /\
      M.calls w' = [M.CallFind 1] /\
      T.classify (T.Code se) = Some T.BadRequest).
Proof.
  assert (Price overdrawn < 0) as Hneg by reflexivity.
  split; [exact Hneg |].
  destruct (negative_price_rejected overdrawn Hneg) as [Hcreate Hupdate].
  split; [exact (Hcreate no_rows) |].
  destruct (Hupdate one_widget 1) as (se & w' & Hrun & Ht & Hc & Hse).
  exists se, w'. repeat split; assumption.
Defined.

End Validation.

(** ** Writing: create, update, delete *)

Section Writing.
Import Decimal Services Contract Samples.

Lemma to_integer_exact n : to_integer (exact_price n) = Some n.
Proof.
  unfold to_integer, exact_price. cbn.
  rewrite Z.mul_1_r. reflexivity.
Qed.

(** C3: for every ProductBody with price >= 0, when the storage insert of
    the entity built from the body succeeds, CreateProduct succeeds with the
    entity the storage returned, and the price on it is the input integer
    itself with exponent 0 (nothing rounded), which converts back to the
    input price. *)
Theorem CreateProduct_exact_price (w : M.World) (body : ProductBody)
    (product : M.Product) (w' : M.World) :
  0 <= Price body ->
  M.Insert (entity_of 0 body (exact_price (Price body))) w = (Ok product, w') ->
  CreateProduct w body = (Ok product, w') /\
  M.Price product = exact_price (Price body) /\
  to_integer (M.Price product) = Some (Price body) /\
  M.table w' !! M.ID product = Some (M.columns product).
Proof.
  intros Hprice Hinsert.
  rewrite CreateProduct_steps.
  destruct (Price body <? 0) eqn:Hneg; [apply Z.ltb_lt in Hneg; lia |].
  rewrite Hinsert. split; [reflexivity |].
  assert (M.Price product = exact_price (Price body) /\
          M.table w' !! M.ID product = Some (M.columns product)) as [Hp Hrow].
  { revert Hinsert. next_verdict w; storage_steps;
      intros [= <- <-]; cbn; split; try reflexivity; apply lookup_insert_eq. }
  rewrite Hp. auto using to_integer_exact.
Qed.

(** The calls each writer makes on the storage. *)
Lemma new_calls_app w cs' w' :
  M.calls w' = M.calls w ++ cs' -> new_calls w w' = cs'.
Proof.
  unfold new_calls. intros ->. apply drop_app_length.
Qed.

Ltac calls_done :=
  unfold new_calls; cbn; rewrite <- ?app_assoc; apply drop_app_length.

Lemma CreateProduct_calls w body :
  new_calls w (snd (CreateProduct w body)) =
  if Price body <? 0 then []
  else [M.CallInsert (entity_of 0 body (exact_price (Price body)))].
Proof.
  rewrite CreateProduct_steps.
  destruct (Price body <? 0) eqn:Hneg.
  - apply new_calls_app. cbn. symmetry. apply app_nil_r.
  - next_verdict w; storage_steps; calls_done.
Qed.

Lemma UpdateProduct_calls w id body :
  new_calls w (snd (UpdateProduct w id body)) =
  M.CallFind id ::
  match fst (M.FindProduct w id) with
  | Ok found =>
      if Price body <? 0 then []
      else [M.CallUpdate (entity_of (M.ID found) body (exact_price (Price body)))]
  | Err _ => []
  end.
Proof.
  rewrite UpdateProduct_steps.
  next_verdict w; storage_steps; try calls_done.
  all: destruct fs as [| [cause' |] fs']; storage_steps; calls_done.
Qed.

Lemma description_of_states text :
  (text = "" -> absent (description_of text)) /\
  (text <> "" ->
   present_with_text (description_of text) /\
   null.String_ (description_of text) = text).
Proof.
  unfold absent, present_with_text, description_of. cbn.
  destruct (String.eqb_spec text ""); split; intros; try contradiction;
    repeat split; auto.
Qed.

Lemma description_of_ok text : description_ok (description_of text).
Proof.
  destruct (String.eqb_spec text "") as [Heq | Hne].
  - right. apply description_of_states. assumption.
  - left. apply description_of_states. assumption.
Qed.

Lemma descriptions_ok_insert t k c :
  descriptions_ok t -> description_ok (M.description c) ->
  descriptions_ok (<[k := c]> t).
Proof.
  intros Ht Hp id q. rewrite lookup_insert. case_decide.
  - intros [= <-]. assumption.
  - apply Ht.
Qed.

Lemma descriptions_ok_delete t k :
  descriptions_ok t -> descriptions_ok (delete k t).
Proof.
  intros Ht id q Hq. apply lookup_delete_Some in Hq as [_ Hq]. eapply Ht, Hq.
Qed.

Ltac table_ok :=
  first [ assumption
        | apply descriptions_ok_insert; [assumption | apply description_of_ok]
        | apply descriptions_ok_delete; assumption ].

Lemma run_descriptions_ok op w :
  descriptions_ok (M.table w) -> descriptions_ok (M.table (snd (run op w))).
Proof.
  intros Hok. destruct op as [| id | body | id body | id]; unfold run.
  - unfold GetProducts. next_verdict w; storage_steps; table_ok.
  - unfold GetProduct. next_verdict w; storage_steps; table_ok.
  - rewrite CreateProduct_steps. next_verdict w; storage_steps; table_ok.
  - rewrite UpdateProduct_steps.
    next_verdict w; storage_steps; try table_ok.
    all: destruct fs as [| [cause' |] fs']; storage_steps; table_ok.
  - unfold DeleteProduct.
    next_verdict w; storage_steps; try table_ok.
    all: destruct fs as [| [cause' |] fs']; storage_steps; table_ok.
Qed.

(** C4: the description CreateProduct and UpdateProduct write is absent
    when the input text is empty and present with exactly the input text
    otherwise; every row they hand to the storage, and the entity they
    return, carries that description; and no operation ever leaves a
    present-but-empty description in the table. *)
Theorem description_present_or_absent :
  (forall text,
      (text = "" -> absent (description_of text)) /\
      (text <> "" ->
       present_with_text (description_of text) /\
       null.String_ (description_of text) = text)) /\
  (forall w body c row,
      c ∈ new_calls w (snd (CreateProduct w body)) -> written c = Some row ->
      M.Description row = description_of (Description body)) /\
  (forall w id body c row,
      c ∈ new_calls w (snd (UpdateProduct w id body)) -> written c = Some row ->
      M.Description row = description_of (Description body)) /\
  (forall w w' body product,
      CreateProduct w body = (Ok product, w') ->
      M.Description product = description_of (Description body)) /\
  (forall w w' id body product,
      UpdateProduct w id body = (Ok product, w') ->
      M.Description product = description_of (Description body)) /\
  (forall op w,
      descriptions_ok (M.table w) ->
      descriptions_ok (M.table (snd (run op w)))).
Proof.
  split; [exact description_of_states |].
  split.
  { intros w body c row. rewrite CreateProduct_calls.
    destruct (Price body <? 0); [intros Hin; inversion Hin |].
    intros Hin%list_elem_of_singleton. subst c. intros [= <-]. reflexivity. }
  split.
  { intros w id body c row. rewrite UpdateProduct_calls.
    intros [-> | Hin]%elem_of_cons; [discriminate |].
    revert Hin.
    destruct (fst (M.FindProduct w id)); [| intros Hin; inversion Hin].
    destruct (Price body <? 0); [intros Hin; inversion Hin |].
    intros Hin%list_elem_of_singleton. subst c. intros [= <-]. reflexivity. }
  split.
  { intros w w' body product. rewrite CreateProduct_steps.
    next_verdict w; storage_steps; intros [= <- <-]; reflexivity. }
  split.
  { intros w w' id body product. rewrite UpdateProduct_steps.
    next_verdict w; storage_steps;
      try discriminate; try (intros [= <- <-]; reflexivity).
    all: destruct fs as [| [cause' |] fs']; storage_steps;
      try discriminate; intros [= <- <-]; reflexivity. }
  exact run_descriptions_ok.
Qed.

Lemma CreateProduct_exact_price_witness :
  0 <= Price priceless /\
  CreateProduct no_rows priceless =
    (Ok (entity_of 1 priceless (exact_price 9223372036854775807)),
     {| M.table := {[ 1 := M.columns (entity_of 1 priceless
                                        (exact_price 9223372036854775807)) ]};
        M.next_id := 2; M.faults := [];
        M.calls := [M.CallInsert (entity_of 0 priceless
                                    (exact_price 9223372036854775807))] |}) /\
  to_integer (M.Price (entity_of 1 priceless (exact_price 9223372036854775807)))
    = Some 9223372036854775807.
Proof.
  assert (0 <= Price priceless) as Hprice by (cbn; lia).
  split; [exact Hprice |].
  edestruct (CreateProduct_exact_price no_rows priceless) as (Hc & _ & Hi & _);
    [exact Hprice | reflexivity |].
  split; [exact Hc | exact Hi].
Defined.

(** C6, as the spec states it, fails when the storage is lost between the
    two calls: the delete succeeds, and the get that follows fails with
    internal-error, not with not-found. *)
Lemma delete_then_get_storage_lost :
  exists w1 se w2,
    DeleteProduct outage_after_two 1 = (None, w1) /\
    GetProduct w1 1 = (Err se, w2) /\
    T.classify (T.Code se) = Some T.InternalError /\
    T.classify (T.Code se) <> Some T.NotFound.
Proof.
  do 3 eexists. split; [reflexivity |]. split; [reflexivity |].
  split; [reflexivity | discriminate].
Qed.

(** A successful delete leaves no row under the id. *)
Lemma DeleteProduct_removes w id w1 :
  DeleteProduct w id = (None, w1) -> M.table w1 !! id = None.
Proof.
  unfold DeleteProduct.
  next_verdict w; storage_steps; try discriminate;
    try (intros [= <-]; cbn; apply lookup_delete_eq).
  all: destruct fs as [| [cause' |] fs']; storage_steps; try discriminate;
    intros [= <-]; cbn; apply lookup_delete_eq.
Qed.

(** C6, amended: for every id, after a successful DeleteProduct no row is
    left under the id, and a GetProduct on the same id never returns a
    product: it fails with not-found, unless the lookup itself fails in the
    storage, and then it fails with internal-error. *)
Theorem delete_then_get (w : M.World) (id : Z) (w1 : M.World) :
  DeleteProduct w id = (None, w1) ->
  M.table w1 !! id = None /\
  exists se w2,
    GetProduct w1 id = (Err se, w2) /\
    match M.faults w1 with
    | Some cause :: _ =>
        T.Error se = errors_New cause /\
        T.classify (T.Code se) = Some T.InternalError
    | _ =>
        T.Error se = sql_ErrNoRows /\
        T.classify (T.Code se) = Some T.NotFound
    end.
Proof.
  intros Hgone%DeleteProduct_removes. split; [assumption |].
  unfold GetProduct.
  destruct (FindProduct_cases w1 id) as (w2 & _ & _ & _ & _ & ->).
  rewrite Hgone.
  destruct (M.faults w1) as [| [cause |] fs]; cbn; eauto.
Qed.

Lemma delete_then_get_witness :
  DeleteProduct one_widget 1 = (None, widget_deleted) /\
  M.table widget_deleted !! 1 = None /\
  exists se w2,
    GetProduct widget_deleted 1 = (Err se, w2) /\
    T.Error se = sql_ErrNoRows /\
    T.classify (T.Code se) = Some T.NotFound.
Proof.
  split; [reflexivity |].
  apply (delete_then_get one_widget 1 widget_deleted). reflexivity.
Defined.

End Writing.

(** ** Failures *)

Section Failures.
Import Strconv Decimal Services Contract Samples.

#[local] Arguments last_cause : simpl never.
#[local] Arguments messages : simpl never.

(** The five services, with the conversions of the price settled. *)
Ltac service_steps :=
  unfold run, GetProducts, GetProduct, DeleteProduct;
  rewrite ?CreateProduct_steps, ?UpdateProduct_steps.

Lemma classify_codes :
  T.classify fiber.StatusNotFound = Some T.NotFound /\
  T.classify fiber.StatusBadRequest = Some T.BadRequest /\
  T.classify fiber.StatusInternalServerError = Some T.InternalError.
Proof. repeat split. Qed.

(** C7: every failing invocation of any of the five operations returns one
    service error whose code is one of the three classifications
    (not-found, bad-request, internal-error), and leaves the persisted rows
    as they were. *)
Theorem failure_classified_and_without_effect
    (op : Op) (w : M.World) (se : T.ServiceError) (w' : M.World) :
  run op w = (Err se, w') ->
  (exists c : T.Classification, T.classify (T.Code se) = Some c) /\
  M.table w' = M.table w.
Proof.
  destruct op as [| id | body | id body | id]; service_steps;
    next_verdict w; storage_steps;
    try discriminate; try (intros [= <- <-]; cbn; eauto).
  all: destruct fs as [| [cause' |] fs']; storage_steps;
    try discriminate; intros [= <- <-]; cbn; eauto.
Qed.

Lemma failure_classified_and_without_effect_witness :
  exists se w',
    run (Delete 1) (second_call_fails "connection reset") = (Err se, w') /\
    T.classify (T.Code se) = Some T.InternalError /\
    M.table w' = {[ 1 := widget_row ]}.
Proof.
  do 2 eexists.
  assert (run (Delete 1) (second_call_fails "connection reset") =
          (Err {| T.Message := "Unable to delete product";
                  T.Error := errors_New "connection reset";
                  T.Code := 500 |},
           {| M.table := {[ 1 := widget_row ]}; M.next_id := 2; M.faults := [];
              M.calls := [M.CallFind 1; M.CallDelete (M.entity 1 widget_row)] |}))
    as Hrun by reflexivity.
  split; [exact Hrun |].
  split; [reflexivity |].
  exact (proj2 (failure_classified_and_without_effect _ _ _ _ Hrun)).
Defined.

Lemma same_verdict (f1 f2 : option string) :
  (is_Some f1 <-> is_Some f2) ->
  (f1 = None /\ f2 = None) \/ (exists c1 c2, f1 = Some c1 /\ f2 = Some c2).
Proof.
  destruct f1 as [c1 |], f2 as [c2 |]; intros [H12 H21]; eauto.
  - destruct H12 as [? [=]]. eauto.
  - destruct H21 as [? [=]]. eauto.
Qed.

(** Split two lists of verdicts that fail at the same places on their heads. *)
Ltac same_verdicts HF :=
  let Hhd := fresh "Hhd" in
  let Htl := fresh "Htl" in
  inversion HF as [| ? ? ? ? Hhd Htl]; subst; clear HF;
  [| destruct (same_verdict _ _ Hhd) as [[-> ->] | (? & ? & -> & ->)];
     clear Hhd ].

Lemma run_user_facing op w1 w2 :
  same_but_causes w1 w2 ->
  user_facing (fst (run op w1)) = user_facing (fst (run op w2)).
Proof.
  destruct w1 as [t1 n1 fs1 cs1], w2 as [t2 n2 fs2 cs2].
  unfold same_but_causes. cbn. intros (<- & <- & HF).
  same_verdicts HF.
  - destruct op; service_steps; storage_steps; reflexivity.
  - match goal with H : Forall2 _ _ _ |- _ => same_verdicts H end;
      destruct op; service_steps; storage_steps; reflexivity.
  - destruct op; service_steps; storage_steps; reflexivity.
Qed.

Lemma last_cause_app w w' pre :
  M.faults w = pre ++ M.faults w' -> last_cause w w' = mjoin (last pre).
Proof.
  intros H. unfold last_cause, consumed.
  rewrite H at 1 2. rewrite length_app, Nat.add_sub, take_app_length.
  reflexivity.
Qed.

(** The cause of the last round trip between the two worlds of the goal. *)
Ltac settle_last_cause :=
  let cause := fresh "cause" in
  let H := fresh "Hcause" in
  intros cause H;
  first [ erewrite (last_cause_app _ _ []) in H by reflexivity
        | erewrite (last_cause_app _ _ [_]) in H by reflexivity
        | erewrite (last_cause_app _ _ [_; _]) in H by reflexivity ];
  cbn in H; congruence.

Lemma failure_message_and_cause op w se w' :
  run op w = (Err se, w') ->
  T.Message se ∈ messages /\
  forall cause, last_cause w w' = Some cause -> T.Error se = errors_New cause.
Proof.
  destruct op as [| id | body | id body | id]; service_steps;
    next_verdict w; storage_steps;
    try discriminate;
    try (intros [= <- <-]; cbn; split;
         [unfold messages; set_solver | settle_last_cause]).
  all: destruct fs as [| [cause' |] fs']; storage_steps;
    try discriminate; intros [= <- <-]; cbn; split;
    [unfold messages; set_solver | settle_last_cause].
Qed.

(** C9: the message and the code of a failure do not depend on the
    underlying error: two runs of an operation in worlds that differ only in
    the causes of the storage failures give the caller the same reply,
    message for message and code for code; the message of every failure is
    one of the constant strings of the service; and the cause of a failed
    storage call is what the Error field holds. *)
Theorem message_independent_of_cause (op : Op) (w1 w2 : M.World) :
  same_but_causes w1 w2 ->
  user_facing (fst (run op w1)) = user_facing (fst (run op w2)) /\
  (forall se w',
      run op w1 = (Err se, w') ->
      T.Message se ∈ messages /\
      forall cause, last_cause w1 w' = Some cause -> T.Error se = errors_New cause).
Proof.
  intros Hsame. split.
  - apply run_user_facing. assumption.
  - intros se w'. apply failure_message_and_cause.
Qed.

Lemma message_independent_of_cause_witness :
  user_facing (fst (run (Delete 1) (second_call_fails "connection reset"))) =
  user_facing (fst (run (Delete 1) (second_call_fails "deadlock detected"))) /\
  fst (run (Delete 1) (second_call_fails "connection reset")) =
    Err {| T.Message := "Unable to delete product";
           T.Error := errors_New "connection reset"; T.Code := 500 |} /\
  fst (run (Delete 1) (second_call_fails "deadlock detected")) =
    Err {| T.Message := "Unable to delete product";
           T.Error := errors_New "deadlock detected"; T.Code := 500 |}.
Proof.
  split; [| split; reflexivity].
  apply (message_independent_of_cause (Delete 1)
           (second_call_fails "connection reset")
           (second_call_fails "deadlock detected")).
  split; [reflexivity |]. split; [reflexivity |]. cbn.
  constructor; [split; intros [? [=]] |].
  constructor; [split; intros _; eexists; reflexivity |].
  constructor.
Defined.

(** C10: for every non-negative price the decimal parse of the price string
    succeeds, with the price as its value and exponent 0, so neither
    CreateProduct nor UpdateProduct ever fails with the message of the
    malformed-literal branch. *)
Theorem invalid_price_format_unreachable (n : Z) :
  0 <= n ->
  NewFromString (Itoa n) = Ok {| value := n; exp := 0 |} /\
  (forall w id body se w',
      Price body = n ->
      CreateProduct w body = (Err se, w') \/
      UpdateProduct w id body = (Err se, w') ->
      T.Message se <> "Invalid price format").
Proof.
  intros Hn. split; [apply NewFromString_Itoa; assumption |].
  intros w id body se w' Hprice.
  rewrite CreateProduct_steps, UpdateProduct_steps.
  intros [Hrun | Hrun]; revert Hrun;
    next_verdict w; storage_steps; try discriminate;
    try (intros [= <- <-]; cbn; discriminate).
  all: destruct fs as [| [cause' |] fs']; storage_steps;
    try discriminate; intros [= <- <-]; cbn; discriminate.
Qed.

Lemma invalid_price_format_unreachable_witness :
  NewFromString (Itoa 9223372036854775807) =
  Ok {| value := 9223372036854775807; exp := 0 |}.
Proof.
  apply (invalid_price_format_unreachable 9223372036854775807). lia.
Defined.

End Failures.

(** ** How the operations compose *)

(** Turn the outcome of the price check into an inequality. *)
Ltac price_sign :=
  repeat match goal with
         | H : (_ <? 0) = false |- _ => apply Z.ltb_ge in H
         | H : (_ <? 0) = true |- _ => apply Z.ltb_lt in H
         end.

Section Composition.
Import Decimal Services Contract Samples.

Lemma entity_columns (p : M.Product) : M.entity (M.ID p) (M.columns p) = p.
Proof. destruct p. reflexivity. Qed.

(** What a successful create, update and delete did to the world. *)
Lemma CreateProduct_ok w body p w1 :
  CreateProduct w body = (Ok p, w1) ->
  0 <= Price body /\ answers w = true /\
  M.table w !! M.next_id w = None /\
  p = entity_of (M.next_id w) body (exact_price (Price body)) /\
  M.table w1 = <[M.next_id w := M.columns p]> (M.table w) /\
  M.faults w1 = tail (M.faults w).
Proof.
  rewrite CreateProduct_steps.
  next_verdict w; storage_steps; try discriminate;
    intros [= <- <-]; price_sign; cbn; repeat split; assumption.
Qed.

Lemma UpdateProduct_ok w id body p w1 :
  UpdateProduct w id body = (Ok p, w1) ->
  0 <= Price body /\ answers w = true /\
  is_Some (M.table w !! id) /\
  p = entity_of id body (exact_price (Price body)) /\
  M.table w1 = <[id := M.columns p]> (M.table w) /\
  M.faults w1 = tail (tail (M.faults w)).
Proof.
  rewrite UpdateProduct_steps.
  next_verdict w; storage_steps; try discriminate;
    try (intros [= <- <-]; price_sign; cbn; repeat split; eauto).
  all: destruct fs as [| [cause' |] fs']; storage_steps; try discriminate;
    intros [= <- <-]; price_sign; cbn; repeat split; eauto.
Qed.

Lemma DeleteProduct_ok w id w1 :
  DeleteProduct w id = (None, w1) ->
  answers w = true /\
  is_Some (M.table w !! id) /\
  M.table w1 = delete id (M.table w) /\
  M.faults w1 = tail (tail (M.faults w)).
Proof.
  unfold DeleteProduct.
  next_verdict w; storage_steps; try discriminate;
    try (intros [= <-]; cbn; repeat split; eauto).
  all: destruct fs as [| [cause' |] fs']; storage_steps; try discriminate;
    intros [= <-]; cbn; repeat split; eauto.
Qed.

(** The reads on a storage that answers. *)
Lemma GetProduct_answers w id :
  answers w = true ->
  GetProduct w id =
  (match M.table w !! id with
   | Some c => Ok (M.entity id c)
   | None => Err product_not_found
   end, after (M.CallFind id) w).
Proof.
  unfold GetProduct, answers, after.
  next_verdict w; storage_steps; try discriminate; reflexivity.
Qed.


Lemma after_table c w : M.table (after c w) = M.table w.
Proof. apply round_trip_world. Qed.

(** The writers on an id that is not stored, with a storage that answers. *)
Lemma UpdateProduct_missing w id body :
  M.table w !! id = None -> answers w = true ->
  UpdateProduct w id body = (Err product_not_found, after (M.CallFind id) w).
Proof.
  rewrite UpdateProduct_steps.
  unfold answers, after, M.FindProduct, M.round_trip.
  next_verdict w; cbn; intros Hnone Hanswers; try discriminate;
    rewrite Hnone; reflexivity.
Qed.

Lemma DeleteProduct_missing w id :
  M.table w !! id = None -> answers w = true ->
  DeleteProduct w id = (Some product_not_found, after (M.CallFind id) w).
Proof.
  unfold DeleteProduct, answers, after, M.FindProduct, M.round_trip.
  next_verdict w; cbn; intros Hnone Hanswers; try discriminate;
    rewrite Hnone; reflexivity.
Qed.

(** X1: DeleteProduct looks the product up before anything else: whenever
    GetProduct fails on an id, DeleteProduct fails on it with the very same
    service error and in the same world; the lookup was its only call and
    the rows are as they were. *)
Theorem DeleteProduct_lookup_first (w : M.World) (id : Z)
    (se : T.ServiceError) (w' : M.World) :
  GetProduct w id = (Err se, w') ->
  DeleteProduct w id = (Some se, w') /\
  M.table w' = M.table w /\
  new_calls w w' = [M.CallFind id].
Proof.
  unfold GetProduct, DeleteProduct.
  destruct (FindProduct_cases w id) as (w1 & Ht & _ & Hc & _ & Hfind).
  destruct (M.FindProduct w id) as [[product | err] w0]; [discriminate |].
  assert (w0 = w1) as ->
    by (destruct (M.faults w) as [| [cause |] fs];
        try destruct (M.table w !! id); congruence).
  destruct err as [| text]; cbn [is_ErrNoRows]; intros [= <- <-];
    (split; [reflexivity |]); (split; [assumption |]);
    apply new_calls_app; assumption.
Qed.

Lemma DeleteProduct_lookup_first_witness :
  GetProduct no_rows 7 = (Err product_not_found, after (M.CallFind 7) no_rows) /\
  DeleteProduct no_rows 7 = (Some product_not_found, after (M.CallFind 7) no_rows).
Proof.
  split; [reflexivity |].
  apply (DeleteProduct_lookup_first no_rows 7). reflexivity.
Defined.

(** X2: on an id that is not stored, and with a storage that answers, the
    three operations that take an id all fail alike: GetProduct,
    UpdateProduct (whatever the body) and DeleteProduct return the
    not-found error carrying [sql.ErrNoRows], after the one lookup, and the
    rows are as they were. *)
Theorem missing_id_not_found (w : M.World) (id : Z) :
  M.table w !! id = None ->
  answers w = true ->
  GetProduct w id = (Err product_not_found, after (M.CallFind id) w) /\
  (forall body,
      UpdateProduct w id body =
      (Err product_not_found, after (M.CallFind id) w)) /\
  DeleteProduct w id = (Some product_not_found, after (M.CallFind id) w) /\
  M.table (after (M.CallFind id) w) = M.table w /\
  new_calls w (after (M.CallFind id) w) = [M.CallFind id].
Proof.
  intros Hnone Hanswers.
  split; [rewrite GetProduct_answers, Hnone by assumption; reflexivity |].
  split; [intros body; apply UpdateProduct_missing; assumption |].
  split; [apply DeleteProduct_missing; assumption |].
  split; [apply after_table |].
  apply new_calls_app. apply round_trip_world.
Qed.

Lemma missing_id_not_found_witness :
  GetProduct one_widget 2 = (Err product_not_found, after (M.CallFind 2) one_widget) /\
  UpdateProduct one_widget 2 gizmo =
    (Err product_not_found, after (M.CallFind 2) one_widget) /\
  DeleteProduct one_widget 2 =
    (Some product_not_found, after (M.CallFind 2) one_widget).
Proof.
  destruct (missing_id_not_found one_widget 2) as (Hget & Hupdate & Hdelete & _);
    [reflexivity | reflexivity |].
  split; [exact Hget |]. split; [exact (Hupdate gizmo) | exact Hdelete].
Defined.

(** X3: a successful CreateProduct adds exactly one row: the entity it
    returns is the body's name, description and exact price under an
    identifier no row had before; that row is now stored, and every other
    row is as it was. *)
Theorem CreateProduct_adds_one_row (w : M.World) (body : ProductBody)
    (p : M.Product) (w1 : M.World) :
  CreateProduct w body = (Ok p, w1) ->
  M.table w !! M.ID p = None /\
  p = entity_of (M.ID p) body (exact_price (Price body)) /\
  M.table w1 !! M.ID p = Some (M.columns p) /\
  (forall k, k <> M.ID p -> M.table w1 !! k = M.table w !! k).
Proof.
  intros (_ & _ & Hfresh & Hp & Ht & _)%CreateProduct_ok.
  assert (M.ID p = M.next_id w) as Hid by (rewrite Hp; reflexivity).
  rewrite Hid, Ht. repeat split.
  - assumption.
  - assumption.
  - apply lookup_insert_eq.
  - intros k Hk. apply lookup_insert_ne. congruence.
Qed.

Lemma CreateProduct_adds_one_row_witness :
  M.table no_rows !! 1 = None /\
  M.table (snd (CreateProduct no_rows widget)) !! 1 =
    Some (M.columns (entity_of 1 widget (exact_price 10))).
Proof.
  destruct (CreateProduct_adds_one_row no_rows widget
              (entity_of 1 widget (exact_price 10))
              (snd (CreateProduct no_rows widget)))
    as (Hfresh & _ & Hrow & _); [reflexivity |].
  split; [exact Hfresh | exact Hrow].
Defined.

(** X4: create, then get: when CreateProduct has succeeded and the storage
    answers the next call, GetProduct on the identifier of the returned
    entity returns that very entity. *)
Theorem create_then_get (w : M.World) (body : ProductBody)
    (p : M.Product) (w1 : M.World) :
  CreateProduct w body = (Ok p, w1) ->
  answers w1 = true ->
  GetProduct w1 (M.ID p) = (Ok p, after (M.CallFind (M.ID p)) w1).
Proof.
  intros (_ & _ & _ & Hp & Ht & _)%CreateProduct_ok Hanswers.
  rewrite GetProduct_answers by assumption.
  assert (M.ID p = M.next_id w) as Hid by (rewrite Hp; reflexivity).
  rewrite Ht, Hid, lookup_insert_eq, <- Hid, entity_columns. reflexivity.
Qed.

Lemma create_then_get_witness :
  GetProduct (snd (CreateProduct no_rows priceless)) 1 =
  (Ok (entity_of 1 priceless (exact_price 9223372036854775807)),
   after (M.CallFind 1) (snd (CreateProduct no_rows priceless))).
Proof.
  apply (create_then_get no_rows priceless
           (entity_of 1 priceless (exact_price 9223372036854775807)));
    reflexivity.
Defined.



(** X6: a successful UpdateProduct replaces the row wholesale: the id was
    stored, the returned entity is the id with the body's name, description
    and exact price (nothing of the old row is kept), that is what the row
    now holds, and every other row is as it was. *)
Theorem UpdateProduct_overwrites (w : M.World) (id : Z) (body : ProductBody)
    (p : M.Product) (w1 : M.World) :
  UpdateProduct w id body = (Ok p, w1) ->
  is_Some (M.table w !! id) /\
  p = entity_of id body (exact_price (Price body)) /\
  M.table w1 !! id = Some (M.columns p) /\
  (forall k, k <> id -> M.table w1 !! k = M.table w !! k).
Proof.
  intros (_ & _ & Hstored & Hp & Ht & _)%UpdateProduct_ok.
  rewrite Ht. repeat split.
  - assumption.
  - assumption.
  - apply lookup_insert_eq.
  - intros k Hk. apply lookup_insert_ne. congruence.
Qed.

Lemma UpdateProduct_overwrites_witness :
  M.table (snd (UpdateProduct one_widget 1 gizmo)) !! 1 =
  Some (M.columns (entity_of 1 gizmo (exact_price 25))).
Proof.
  destruct (UpdateProduct_overwrites one_widget 1 gizmo
              (entity_of 1 gizmo (exact_price 25))
              (snd (UpdateProduct one_widget 1 gizmo)))
    as (_ & _ & Hrow & _); [reflexivity |].
  exact Hrow.
Defined.

(** X7: update, then get: when UpdateProduct has succeeded and the storage
    answers the next call, GetProduct on the same id returns the updated
    entity, all three fields new. *)
Theorem update_then_get (w : M.World) (id : Z) (body : ProductBody)
    (p : M.Product) (w1 : M.World) :
  UpdateProduct w id body = (Ok p, w1) ->
  answers w1 = true ->
  GetProduct w1 id = (Ok p, after (M.CallFind id) w1) /\
  p = entity_of id body (exact_price (Price body)).
Proof.
  intros (_ & _ & _ & Hp & Ht & _)%UpdateProduct_ok Hanswers.
  split; [| assumption].
  rewrite GetProduct_answers by assumption.
  assert (M.ID p = id) as Hid by (rewrite Hp; reflexivity).
  rewrite Ht, lookup_insert_eq, <- Hid, entity_columns. reflexivity.
Qed.

Lemma update_then_get_witness :
  GetProduct (snd (UpdateProduct one_widget 1 gizmo)) 1 =
  (Ok (entity_of 1 gizmo (exact_price 25)),
   after (M.CallFind 1) (snd (UpdateProduct one_widget 1 gizmo))).
Proof.
  apply (update_then_get one_widget 1 gizmo (entity_of 1 gizmo (exact_price 25)));
    reflexivity.
Defined.

(** X8: the last update wins: after two successful UpdateProduct calls on
    the same id, the rows are what the second body alone would have left,
    with no trace of the first. *)
Theorem last_update_wins (w : M.World) (id : Z) (body1 body2 : ProductBody)
    (p1 p2 : M.Product) (w1 w2 : M.World) :
  UpdateProduct w id body1 = (Ok p1, w1) ->
  UpdateProduct w1 id body2 = (Ok p2, w2) ->
  p2 = entity_of id body2 (exact_price (Price body2)) /\
  M.table w2 = <[id := M.columns p2]> (M.table w).
Proof.
  intros (_ & _ & _ & _ & Ht1 & _)%UpdateProduct_ok
         (_ & _ & _ & Hp2 & Ht2 & _)%UpdateProduct_ok.
  split; [assumption |].
  rewrite Ht2, Ht1. apply insert_insert_eq.
Qed.

Lemma last_update_wins_witness :
  M.table (snd (UpdateProduct (snd (UpdateProduct one_widget 1 widget)) 1 gizmo)) =
  <[1 := M.columns (entity_of 1 gizmo (exact_price 25))]> (M.table one_widget).
Proof.
  destruct (last_update_wins one_widget 1 widget gizmo
              (entity_of 1 widget (exact_price 10))
              (entity_of 1 gizmo (exact_price 25))
              (snd (UpdateProduct one_widget 1 widget))
              (snd (UpdateProduct (snd (UpdateProduct one_widget 1 widget)) 1 gizmo)))
    as [_ Ht]; [reflexivity | reflexivity |].
  exact Ht.
Defined.

(** X9: a successful DeleteProduct removes exactly the row of its id: the
    id was stored, and every other row is as it was. *)
Theorem DeleteProduct_removes_one_row (w : M.World) (id : Z) (w1 : M.World) :
  DeleteProduct w id = (None, w1) ->
  is_Some (M.table w !! id) /\
  M.table w1 = delete id (M.table w) /\
  (forall k, k <> id -> M.table w1 !! k = M.table w !! k).
Proof.
  intros (_ & Hstored & Ht & _)%DeleteProduct_ok.
  rewrite Ht. repeat split.
  - assumption.
  - intros k Hk. apply lookup_delete_ne. congruence.
Qed.

Lemma DeleteProduct_removes_one_row_witness :
  M.table (snd (DeleteProduct one_widget 1)) = delete 1 (M.table one_widget).
Proof.
  destruct (DeleteProduct_removes_one_row one_widget 1
              (snd (DeleteProduct one_widget 1))) as (_ & Ht & _);
    [reflexivity |].
  exact Ht.
Defined.



(** X15: a deleted id stays gone for the writers too: after a successful
    DeleteProduct, and with a storage that answers, UpdateProduct on the
    same id fails with not-found whatever the body (it never creates the
    row anew), and so does a second DeleteProduct; the rows stay as the
    delete left them. *)
Theorem deleted_id_stays_gone (w : M.World) (id : Z) (w1 : M.World) :
  DeleteProduct w id = (None, w1) ->
  answers w1 = true ->
  (forall body,
      UpdateProduct w1 id body =
      (Err product_not_found, after (M.CallFind id) w1)) /\
  DeleteProduct w1 id = (Some product_not_found, after (M.CallFind id) w1) /\
  M.table (after (M.CallFind id) w1) = delete id (M.table w).
Proof.
  intros (_ & _ & Ht & _)%DeleteProduct_ok Hanswers.
  assert (M.table w1 !! id = None) as Hgone
    by (rewrite Ht; apply lookup_delete_eq).
  split; [intros body; apply UpdateProduct_missing; assumption |].
  split; [apply DeleteProduct_missing; assumption |].
  rewrite after_table. assumption.
Qed.

Lemma deleted_id_stays_gone_witness :
  UpdateProduct (snd (DeleteProduct one_widget 1)) 1 gizmo =
    (Err product_not_found,
     after (M.CallFind 1) (snd (DeleteProduct one_widget 1))) /\
  DeleteProduct (snd (DeleteProduct one_widget 1)) 1 =
    (Some product_not_found,
     after (M.CallFind 1) (snd (DeleteProduct one_widget 1))).
Proof.
  destruct (deleted_id_stays_gone one_widget 1 (snd (DeleteProduct one_widget 1)))
    as (Hupdate & Hdelete & _); [reflexivity | reflexivity |].
  split; [exact (Hupdate gizmo) | exact Hdelete].
Defined.

End Composition.

(** ** What the operations never do *)

Section Discipline.
Import Decimal Services Contract Samples.

#[local] Arguments new_calls : simpl never.
#[local] Arguments calls_allowed : simpl never.

Lemma prices_ok_insert t k c :
  prices_ok t -> 0 <= coefficient (M.price c) -> prices_ok (<[k := c]> t).
Proof.
  intros Ht Hc id c'. rewrite lookup_insert. case_decide.
  - intros [= <-]. assumption.
  - apply Ht.
Qed.

Lemma prices_ok_delete t k : prices_ok t -> prices_ok (delete k t).
Proof.
  intros Ht id c Hc. apply lookup_delete_Some in Hc as [_ Hc]. eapply Ht, Hc.
Qed.

Ltac prices_done :=
  first [ assumption
        | apply prices_ok_insert; [assumption | cbn; price_sign; assumption]
        | apply prices_ok_delete; assumption ].

(** X11: no operation ever persists a negative price: if no stored price is
    below zero, none is after any of the five operations, whatever the
    request and whether it succeeds or fails. *)
Theorem prices_never_negative (op : Op) (w : M.World) :
  prices_ok (M.table w) -> prices_ok (M.table (snd (run op w))).
Proof.
  intros Hok. destruct op as [| id | body | id body | id]; unfold run.
  - unfold GetProducts. next_verdict w; storage_steps; prices_done.
  - unfold GetProduct. next_verdict w; storage_steps; prices_done.
  - rewrite CreateProduct_steps. next_verdict w; storage_steps; prices_done.
  - rewrite UpdateProduct_steps.
    next_verdict w; storage_steps; try prices_done.
    all: destruct fs as [| [cause' |] fs']; storage_steps; prices_done.
  - unfold DeleteProduct.
    next_verdict w; storage_steps; try prices_done.
    all: destruct fs as [| [cause' |] fs']; storage_steps; prices_done.
Qed.

Lemma prices_never_negative_witness :
  prices_ok (M.table (snd (run (Update 1 gizmo) one_widget))).
Proof.
  apply (prices_never_negative (Update 1 gizmo) one_widget).
  unfold one_widget. cbn.
  intros id c [<- <-]%lookup_singleton_Some. cbn. lia.
Defined.

Ltac calls_known :=
  erewrite new_calls_app
    by first [ cbn; rewrite <- ?app_assoc; reflexivity
             | cbn; symmetry; apply app_nil_r ].

(** X12: the calls an operation makes on the storage: GetProducts makes the
    one fetch and GetProduct the one lookup; CreateProduct makes no call or
    the one insert; UpdateProduct and DeleteProduct make the lookup of their
    id and then nothing, or one write, on the row of that very id.  No
    operation writes twice, and none touches the row of another id. *)
Theorem storage_calls_allowed (op : Op) (w : M.World) :
  calls_allowed op (new_calls w (snd (run op w))).
Proof.
  destruct op as [| id | body | id body | id]; unfold run, calls_allowed.
  - unfold GetProducts. next_verdict w; storage_steps; calls_known; reflexivity.
  - unfold GetProduct. next_verdict w; storage_steps; calls_known; reflexivity.
  - rewrite CreateProduct_steps.
    next_verdict w; storage_steps; calls_known; eauto.
  - rewrite UpdateProduct_steps.
    next_verdict w; storage_steps; try (calls_known; eauto).
    all: destruct fs as [| [cause' |] fs']; storage_steps; calls_known; eauto.
  - unfold DeleteProduct.
    next_verdict w; storage_steps; try (calls_known; eauto).
    all: destruct fs as [| [cause' |] fs']; storage_steps; calls_known; eauto.
Qed.





End Discipline.
